(** * GovInfo API: configuration loader, health-check server and entrypoint

    A shallow embedding of
      - package [config]  (type [Config], [Load], [getEnv]),
      - package [server]  ([Start] and the /health handler it registers),
      - package [main]    (the body of [main], as the statement list
                           it is: it names [logger] before declaring it),
    over an explicit model of the process state the code touches: the
    process environment, the [.env] file, the heap cell holding the
    [*Config], the entries handed to the logger, and the network
    listener. *)

From stdpp Require Import base option strings list gmap.

Open Scope string_scope.
Open Scope list_scope.

(** ** Values *)

(** Go's [error] interface value: [None] is [nil], [Some msg] an error
    with that message. *)
Definition error : Type := option string.

(** A constructed [zap.Logger]; a [*zap.Logger] is [option zap_Logger],
    with [None] the nil pointer. *)
Record zap_Logger := mkLogger { logger_id : nat }.

Global Instance zap_Logger_eq_dec : EqDecision zap_Logger.
Proof. solve_decision. Defined.

(** [type Config struct] of package config. *)
Record Config := mkConfig {
  Port : string;
  DBUrl : string;
  TwilioSID : string;
  TwilioToken : string;
  Logger : option zap_Logger
}.

Global Instance Config_eq_dec : EqDecision Config.
Proof. solve_decision. Defined.

(** Log levels of zap that the program uses. *)
Inductive Level := InfoLevel | FatalLevel.

Global Instance Level_eq_dec : EqDecision Level.
Proof. solve_decision. Defined.

(** A [zap.Field] as built by [zap.String] and [zap.Error]. *)
Definition Field : Type := string * string.

(** One emitted log entry: the logger it went through, its level, its
    message and its structured fields. *)
Record Entry := mkEntry {
  entry_logger : zap_Logger;
  entry_level : Level;
  entry_msg : string;
  entry_fields : list Field
}.

(** The part of an [http.Request] the router dispatches on. *)
Record Request := mkRequest {
  Method : string;
  URL_Path : string
}.

(** An [http.ResponseWriter] during a handler call. [rw_status = None]
    until the header is written. *)
Record ResponseWriter := mkRW {
  rw_status : option nat;
  rw_body : string
}.

(** What the client receives. *)
Record Response := mkResponse {
  StatusCode : nat;
  Body : string
}.

Definition loc : Type := nat.

(** ** Process state *)

Record World := mkWorld {
  (** the process environment, name to value *)
  environ : gmap string string;
  (** the variables of [./.env] as godotenv parses them; [None] when the
      file is absent or cannot be read *)
  dotenv : option (gmap string string);
  (** heap cells holding [Config] structs *)
  heap : gmap loc Config;
  (** the entries handed to a logger so far, one for each call of
      [Info], oldest first; which of them the logger's core writes is
      the core's decision, see [production_writes] *)
  logs : list Entry;
  (** the error binding a given address meets, if any *)
  listen_fail : string → error;
  (** the requests the server receives before the listener stops, in
      the order in which it answers them; the server runs each in a
      goroutine of its own, and this order stands for one interleaving *)
  incoming : list Request;
  (** the error that makes the listener stop after those requests;
      [None] when it keeps accepting for ever *)
  accept_fail : error;
  (** addresses handed to the listener, oldest first *)
  listened : list string;
  (** requests served, oldest first, each with the response sent
      ([None]: the handler panicked and the connection was dropped) *)
  served : list (Request * option Response)
}.

Definition set_environ (e : gmap string string) (w : World) : World :=
  mkWorld e (dotenv w) (heap w) (logs w) (listen_fail w)
          (incoming w) (accept_fail w) (listened w) (served w).

Definition set_heap (h : gmap loc Config) (w : World) : World :=
  mkWorld (environ w) (dotenv w) h (logs w) (listen_fail w)
          (incoming w) (accept_fail w) (listened w) (served w).

Definition set_logs (l : list Entry) (w : World) : World :=
  mkWorld (environ w) (dotenv w) (heap w) l (listen_fail w)
          (incoming w) (accept_fail w) (listened w) (served w).

Definition set_listened (a : list string) (w : World) : World :=
  mkWorld (environ w) (dotenv w) (heap w) (logs w) (listen_fail w)
          (incoming w) (accept_fail w) a (served w).

Definition set_served (s : list (Request * option Response)) (w : World) : World :=
  mkWorld (environ w) (dotenv w) (heap w) (logs w) (listen_fail w)
          (incoming w) (accept_fail w) (listened w) s.

(** ** Effects

    A call either returns a value or does not return to its caller: it
    panics, it ends the process, or it blocks for ever. The state at that
    point is kept in every case. *)

Inductive Abort :=
| Panic (msg : string)
| Exit (code : nat)
| Block.

Inductive Outcome (A : Type) :=
| Ret (a : A)
| Stop (r : Abort).
Arguments Ret {A} a.
Arguments Stop {A} r.

Definition M (A : Type) : Type := World → Outcome A * World.

Global Instance M_ret : MRet M := λ A a w, (Ret a, w).

Global Instance M_bind : MBind M := λ A B f m w,
  match m w with
  | (Ret a, w') => f a w'
  | (Stop r, w') => (Stop r, w')
  end.

Definition stop {A} (r : Abort) : M A := λ w, (Stop r, w).

Definition gets {A} (f : World → A) : M A := λ w, (Ret (f w), w).

Definition modify (f : World → World) : M unit := λ w, (Ret tt, f w).

(** ** Package os and godotenv *)

(** [os.Getenv]: the value of the variable, empty when it is not set. *)
Definition os_Getenv (key : string) : M string :=
  gets (λ w, default "" (environ w !! key)).

(** [godotenv.Load()]: reads [./.env] and sets every variable of it that
    the environment does not have yet; variables already set keep their
    value. Returns an error when the file cannot be read. *)
Definition godotenv_Load : M error := λ w,
  match dotenv w with
  | None => (Ret (Some "open .env: no such file or directory"), w)
  | Some file => (Ret None, set_environ (environ w ∪ file) w)
  end.

(** ** Package config *)

(** [&Config{...}]: a fresh heap cell. *)
Definition new_Config (c : Config) : M loc := λ w,
  let p := fresh (dom (heap w)) in
  (Ret p, set_heap (<[p := c]> (heap w)) w).

(** [func getEnv(key, fallback string) string] *)
Definition getEnv (key fallback : string) : M string :=
  val ← os_Getenv key;
  if decide (val = "") then mret fallback else mret val.

(** [func Load() *Config] *)
Definition Load : M loc :=
  _ ← godotenv_Load;
  port ← getEnv "PORT" "8080";
  dbUrl ← os_Getenv "DATABASE_URL";
  sid ← os_Getenv "TWILIO_SID";
  token ← os_Getenv "TWILIO_TOKEN";
  new_Config (mkConfig port dbUrl sid token None).

(** Reading through a [*Config]; a pointer to no cell panics. *)
Definition deref (p : loc) : M Config := λ w,
  match heap w !! p with
  | Some c => (Ret c, w)
  | None => (Stop (Panic "invalid memory address or nil pointer dereference"), w)
  end.

(** ** Package zap *)

Definition zap_String (key val : string) : Field := (key, val).

(** The entry reaches the logger's core. *)
Definition emit (lg : zap_Logger) (lvl : Level) (msg : string) (fields : list Field) : M unit :=
  modify (λ w, set_logs (logs w ++ [mkEntry lg lvl msg fields]) w).

Definition nil_deref {A} : M A :=
  stop (Panic "invalid memory address or nil pointer dereference").

(** Method [Info] of a [zap.Logger] pointer: one entry at the
    informational level, handed to the core of the logger. *)
Definition Logger_Info (log : option zap_Logger) (msg : string) (fields : list Field) : M unit :=
  match log with
  | None => nil_deref
  | Some lg => emit lg InfoLevel msg fields
  end.

(** *** The core of the logger [zap.NewProduction] builds

    [main] passes [Start] the logger of [zap.NewProduction()]. Its
    level is Info, so it lets entries at the informational and the fatal
    level through, and it samples: [zapcore.NewSamplerWithOptions] with
    a tick of one second, 100 entries first and every 100th thereafter.
    The sampler keeps one counter for each level and message (zap hashes
    the message into 4096 slots for each level; the messages of this
    program fall into slots of their own). Times are in nanoseconds. *)

Record Counter := mkCounter {
  resetAt : Z;
  counter : nat
}.

Definition Sampler : Type := Level → string → Counter.

(** A sampler that has seen no entry. *)
Definition new_Sampler : Sampler := λ _ _, mkCounter 0 0.

Definition sampler_tick : Z := 1000000000.
Definition sampler_first : nat := 100.
Definition sampler_thereafter : nat := 100.

(** [counter.IncCheckReset]: the count of the entry in its window; a
    window that has run out starts again at this entry. *)
Definition IncCheckReset (t : Z) (c : Counter) : nat * Counter :=
  if bool_decide (t < resetAt c)%Z
  then (S (counter c), mkCounter (resetAt c) (S (counter c)))
  else (1, mkCounter (t + sampler_tick) 1).

(** The test of [sampler.Check] on the count [n] of an entry. *)
Definition sampled_out (n : nat) : bool :=
  bool_decide (sampler_first < n) &&
  negb (bool_decide ((n - sampler_first) `mod` sampler_thereafter = 0)).

(** [sampler.Check] for an entry [e] handed over at time [t]: whether
    it is written, and the sampler after it. *)
Definition Sampler_Check (s : Sampler) (t : Z) (e : Entry) : bool * Sampler :=
  let '(n, c) := IncCheckReset t (s (entry_level e) (entry_msg e)) in
  (negb (sampled_out n),
   λ l m, if bool_decide (l = entry_level e ∧ m = entry_msg e) then c else s l m).

(** The entries the production logger writes, of those handed to it at
    the given times. *)
Fixpoint production_writes (s : Sampler) (calls : list (Z * Entry)) : list Entry :=
  match calls with
  | [] => []
  | (t, e) :: rest =>
      let '(written, s') := Sampler_Check s t e in
      (if written then [e] else []) ++ production_writes s' rest
  end.

(** ** Package net/http, fmt and chi *)

Definition Handler : Type := ResponseWriter → Request → M ResponseWriter.

Definition StatusOK : nat := 200.
Definition StatusNotFound : nat := 404.
Definition StatusMethodNotAllowed : nat := 405.

Definition newline : string := String (Ascii.ascii_of_nat 10) EmptyString.

(** [ResponseWriter.WriteHeader] *)
Definition rw_WriteHeader (code : nat) (rw : ResponseWriter) : ResponseWriter :=
  match rw_status rw with
  | Some _ => rw
  | None => mkRW (Some code) (rw_body rw)
  end.

(** [ResponseWriter.Write]: a first write sends the header with status
    200 when none was sent. *)
Definition rw_Write (data : string) (rw : ResponseWriter) : ResponseWriter :=
  let rw := rw_WriteHeader StatusOK rw in
  mkRW (rw_status rw) (rw_body rw +:+ data).

(** [fmt.Fprintln(w, s)] for one string operand: the operand, then a
    newline. *)
Definition fmt_Fprintln (rw : ResponseWriter) (s : string) : ResponseWriter :=
  rw_Write (s +:+ newline) rw.

(** The response of a handler call that returned: an unwritten header
    is sent as 200. *)
Definition finish (rw : ResponseWriter) : Response :=
  mkResponse (default StatusOK (rw_status rw)) (rw_body rw).

Record Route := mkRoute {
  route_method : string;
  route_pattern : string;
  route_handler : Handler
}.

(** The methods chi routes; a request with any other method is answered
    405 before its path is looked at. *)
Definition chi_methods : list string :=
  ["CONNECT"; "DELETE"; "GET"; "HEAD"; "OPTIONS"; "PATCH"; "POST"; "PUT"; "TRACE"].

(** [chi.Mux] restricted to static patterns. *)
Definition Mux : Type := list Route.

Definition chi_NewRouter : Mux := [].

(** Method [Get] of a [chi.Mux] pointer *)
Definition Mux_Get (pattern : string) (h : Handler) (r : Mux) : Mux :=
  r ++ [mkRoute "GET" pattern h].

Definition matches (req : Request) (rt : Route) : bool :=
  bool_decide (route_pattern rt = URL_Path req) && bool_decide (route_method rt = Method req).

Definition path_known (req : Request) (rt : Route) : bool :=
  bool_decide (route_pattern rt = URL_Path req).

(** Method [ServeHTTP] of a [chi.Mux] pointer: 405 for a method chi does
    not route; otherwise the handler of the route with the request's
    path and method, 405 when the path is routed for other methods only,
    404 when it is not routed. *)
Definition Mux_ServeHTTP (r : Mux) : Handler := λ rw req,
  if bool_decide (Method req ∈ chi_methods) then
    match List.find (matches req) r with
    | Some rt => route_handler rt rw req
    | None =>
        if existsb (path_known req) r
        then mret (rw_WriteHeader StatusMethodNotAllowed rw)
        else mret (rw_Write ("404 page not found" +:+ newline) (rw_WriteHeader StatusNotFound rw))
    end
  else mret (rw_WriteHeader StatusMethodNotAllowed rw).

(** The handler net/http itself runs for the request [OPTIONS *]: it
    writes no body and leaves the status at 200. *)
Definition globalOptionsHandler : Handler := λ rw req, mret rw.

(** One request: [OPTIONS *] goes to the handler of net/http, every
    other request to [h]. A panic of the handler is recovered by the
    server and the connection dropped. *)
Definition serve_one (h : Handler) (req : Request) : M unit := λ w,
  let h' := if bool_decide (Method req = "OPTIONS" ∧ URL_Path req = "*")
            then globalOptionsHandler else h in
  match h' (mkRW None "") req w with
  | (Ret rw, w') => (Ret tt, set_served (served w' ++ [(req, Some (finish rw))]) w')
  | (Stop (Panic _), w') => (Ret tt, set_served (served w' ++ [(req, None)]) w')
  | (Stop r, w') => (Stop r, w')
  end.

Fixpoint serve_all (h : Handler) (reqs : list Request) : M unit :=
  match reqs with
  | [] => mret tt
  | req :: rest => serve_one h req;; serve_all h rest
  end.

(** [http.ListenAndServe(addr, h)]: returns the error of binding [addr],
    or serves until the listener fails and returns that error. What
    net/http prints on its own account is not part of the state. *)
Definition http_ListenAndServe (addr : string) (h : Handler) : M error := λ w,
  let w1 := set_listened (listened w ++ [addr]) w in
  match listen_fail w addr with
  | Some e => (Ret (Some e), w1)
  | None =>
      match serve_all h (incoming w) w1 with
      | (Ret _, w2) =>
          match accept_fail w with
          | Some e => (Ret (Some e), w2)
          | None => (Stop Block, w2)
          end
      | (Stop r, w2) => (Stop r, w2)
      end
  end.

(** ** Package server *)

(** The function literal registered for [/health]. *)
Definition health (logger : option zap_Logger) : Handler := λ w r,
  Logger_Info logger "Health check called" [];;
  mret (fmt_Fprintln w "OK").

(** [func Start(cfg *config.Config, logger *zap.Logger) error] *)
Definition Start (cfg : loc) (logger : option zap_Logger) : M error :=
  let r := chi_NewRouter in
  let r := Mux_Get "/health" (health logger) r in
  c ← deref cfg;
  let addr := ":" +:+ Port c in
  Logger_Info logger "Server listening" [zap_String "addr" addr];;
  http_ListenAndServe addr (Mux_ServeHTTP r).

(** ** Package main

    Line 15 of [func main()] names [logger] before its declaration, so
    the body is not well formed and has no run. It is given below as the
    statement list it is, [main_body], with the scoping rules that
    reject it. *)

(** *** Which identifier is in scope where

    The body of [main] as a statement list, and the resolution of its
    identifiers by the scoping rules of the language: an identifier
    declared by [:=] is in scope from the end of that statement to the
    end of the enclosing block; the init statement of an [if] declares
    for the condition and the body only. *)

#[local] Set Warnings "-register-all".

Inductive Expr :=
| Ident (x : string)
| StringLit (s : string)
| Selector (e : Expr) (sel : string)
| Call (f : Expr) (args : list Expr)
| NotEq (a b : Expr).

Inductive Stmt :=
| Define (lhs : list string) (rhs : Expr)
| Assign (lhs rhs : Expr)
| If (init : option (list string * Expr)) (cond : Expr) (body : list Stmt)
| ExprStmt (e : Expr)
| Defer (call : Expr).

(** The identifiers an expression names, in source order. Field and
    method names after a dot are selectors, not identifiers. *)
Fixpoint idents (e : Expr) : list string :=
  match e with
  | Ident x => [x]
  | StringLit _ => []
  | Selector e _ => idents e
  | Call f args => idents f ++ flat_map idents args
  | NotEq a b => idents a ++ idents b
  end.

(** The first identifier of [e] that [scope] does not declare. *)
Definition unresolved (scope : list string) (e : Expr) : option string :=
  List.find (λ x, negb (bool_decide (x ∈ scope))) (idents e).

(** The identifiers a statement adds to its block. *)
Definition declares (s : Stmt) : list string :=
  match s with
  | Define lhs _ => lhs
  | _ => []
  end.

Definition or_else {A} (a b : option A) : option A :=
  match a with
  | Some x => Some x
  | None => b
  end.

(** The first unresolved identifier of a statement. *)
Fixpoint stmt_undefined (scope : list string) (s : Stmt) : option string :=
  match s with
  | Define _ rhs => unresolved scope rhs
  | Assign lhs rhs => or_else (unresolved scope lhs) (unresolved scope rhs)
  | ExprStmt e => unresolved scope e
  | Defer e => unresolved scope e
  | If init cond body =>
      let inner := match init with
                   | Some (lhs, _) => lhs ++ scope
                   | None => scope
                   end in
      or_else (match init with
               | Some (_, rhs) => unresolved scope rhs
               | None => None
               end)
     (or_else (unresolved inner cond)
        ((fix block (sc : list string) (l : list Stmt) : option string :=
            match l with
            | [] => None
            | s :: l' => or_else (stmt_undefined sc s) (block (declares s ++ sc) l')
            end) inner body))
  end.

(** The first statement of a block, counted from [i], that names an
    identifier not in scope, with that identifier. *)
Fixpoint block_undefined (scope : list string) (i : nat) (l : list Stmt) : option (nat * string) :=
  match l with
  | [] => None
  | s :: l' =>
      match stmt_undefined scope s with
      | Some x => Some (i, x)
      | None => block_undefined (declares s ++ scope) (S i) l'
      end
  end.

(** The statement of a block, counted from [i], that declares [x]. *)
Fixpoint declared_at (x : string) (i : nat) (l : list Stmt) : option nat :=
  match l with
  | [] => None
  | s :: l' => if bool_decide (x ∈ declares s) then Some i else declared_at x (S i) l'
  end.

(** What is in scope at the top of [main]: the imports of the file and
    the predeclared [nil]. *)
Definition file_scope : list string :=
  ["fmt"; "log"; "zap"; "config"; "server"; "nil"].

(** The body of [func main()], lines 14 to 27. *)
Definition main_body : list Stmt :=
  [ (* 14 *) Define ["cfg"] (Call (Selector (Ident "config") "Load") []);
    (* 15 *) Assign (Selector (Ident "cfg") "Logger") (Ident "logger");
    (* 17 *) Define ["logger"; "err"] (Call (Selector (Ident "zap") "NewProduction") []);
    (* 18 *) If None (NotEq (Ident "err") (Ident "nil"))
               [ExprStmt (Call (Selector (Ident "log") "Fatalf")
                            [StringLit "can't initialize zap logger: %v"; Ident "err"])];
    (* 21 *) Defer (Call (Selector (Ident "logger") "Sync") []);
    (* 23 *) ExprStmt (Call (Selector (Ident "logger") "Info")
               [StringLit "Starting GovInfo API";
                Call (Selector (Ident "zap") "String")
                  [StringLit "port"; Selector (Ident "cfg") "Port"]]);
    (* 25 *) If (Some (["err"], Call (Selector (Ident "server") "Start")
                                  [Ident "cfg"; Ident "logger"]))
               (NotEq (Ident "err") (Ident "nil"))
               [ExprStmt (Call (Selector (Ident "logger") "Fatal")
                            [StringLit "server failed";
                             Call (Selector (Ident "zap") "Error") [Ident "err"]])] ].

(** *** What the body names, assigns and hands on *)

(** Every identifier a statement names, at any depth. *)
Fixpoint stmt_idents (s : Stmt) : list string :=
  match s with
  | Define _ rhs => idents rhs
  | Assign lhs rhs => idents lhs ++ idents rhs
  | ExprStmt e => idents e
  | Defer e => idents e
  | If init cond body =>
      match init with
      | Some (_, rhs) => idents rhs
      | None => []
      end ++ idents cond ++ flat_map stmt_idents body
  end.

(** The import declaration of [main.go], lines 3 to 11, by the names the
    packages are referred to. *)
Definition main_imports : list string :=
  ["fmt"; "log"; "zap"; "config"; "server"].






(** ** Vocabulary of the statements below *)

(** The Configuration [Load] builds from the environment [e] it reads. *)
Definition built (e : gmap string string) : Config :=
  mkConfig
    (if decide (default "" (e !! "PORT") = "") then "8080" else default "" (e !! "PORT"))
    (default "" (e !! "DATABASE_URL"))
    (default "" (e !! "TWILIO_SID"))
    (default "" (e !! "TWILIO_TOKEN"))
    None.

(** [val] is what reading the variable [var] of [e] gives when no default
    is applied. *)
Definition read_as (e : gmap string string) (var val : string) : Prop :=
  (∀ v, e !! var = Some v → val = v) ∧ (e !! var = None → val = "").

(** The entry one call of the /health handler writes. *)
Definition health_entry (lg : zap_Logger) : Entry :=
  mkEntry lg InfoLevel "Health check called" [].

(** A request that reaches the /health handler. *)
Definition is_health (req : Request) : bool :=
  bool_decide (URL_Path req = "/health") && bool_decide (Method req = "GET").

(** The response the server gives to a request. *)
Definition respond (req : Request) : Response :=
  if bool_decide (Method req = "OPTIONS" ∧ URL_Path req = "*") then
    mkResponse StatusOK ""
  else if bool_decide (Method req ∈ chi_methods) then
    if bool_decide (URL_Path req = "/health") then
      if bool_decide (Method req = "GET")
      then mkResponse StatusOK ("OK" +:+ newline)
      else mkResponse StatusMethodNotAllowed ""
    else mkResponse StatusNotFound ("404 page not found" +:+ newline)
  else mkResponse StatusMethodNotAllowed "".

(** The entries the /health handler writes while [reqs] are served. *)
Definition health_entries (lg : zap_Logger) (reqs : list Request) : list Entry :=
  flat_map (λ req, if is_health req then [health_entry lg] else []) reqs.

(** The error that ends listening on [addr], if any. *)
Definition listener_error (w : World) (addr : string) : error :=
  match listen_fail w addr with
  | Some e => Some e
  | None => accept_fail w
  end.

(** The entry [Start] writes before it listens. *)
Definition listening_entry (lg : zap_Logger) (addr : string) : Entry :=
  mkEntry lg InfoLevel "Server listening" [zap_String "addr" addr].

(** A computation that leaves every heap cell as it found it, however
    it ends. *)
Definition keeps_heap {A} (m : M A) : Prop := ∀ w, heap (m w).2 = heap w.


(** ** Sample process states *)

Definition w0 : World :=
  mkWorld ∅ None ∅ [] (λ _, None) [] None [] [].


Definition w_port_empty : World :=
  set_environ {[ "PORT" := "" ]} w0.

Definition w_twilio : World :=
  set_environ {[ "DATABASE_URL" := "postgres://db/govinfo"; "TWILIO_SID" := "AC123" ]} w0.

(** A Configuration at cell 0, an open port, and three accepted
    requests before the listener is closed. *)
Definition sample_Config : Config := mkConfig "9090" "" "" "" None.

Definition w_serving : World :=
  mkWorld ∅ None {[ 0 := sample_Config ]} [] (λ _, None)
    [mkRequest "GET" "/health"; mkRequest "POST" "/health"; mkRequest "GET" "/users"]
    (Some "use of closed network connection") [] [].

(** The configured port is in use. *)
Definition w_port_taken : World :=
  mkWorld ∅ None {[ 0 := sample_Config ]} []
    (λ addr, if decide (addr = ":9090")
             then Some "listen tcp :9090: bind: address already in use" else None)
    [mkRequest "GET" "/health"] None [] [].

(** [PORT] comes from [.env] only. *)
Definition w_dotenv_port : World :=
  mkWorld {[ "DATABASE_URL" := "postgres://db/govinfo" ]}
    (Some {[ "PORT" := "7000"; "DATABASE_URL" := "postgres://other/db" ]})
    ∅ [] (λ _, None) [] None [] [].




(** ** Facts about the configuration loader *)

Section config_facts.
Implicit Types (w : World) (e : gmap string string) (c : Config).

Lemma built_Port e :
  Port (built e) = match e !! "PORT" with
                   | Some v => if decide (v = "") then "8080" else v
                   | None => "8080"
                   end.
Proof.
  unfold built; cbn [Port].
  destruct (e !! "PORT") as [v|]; unfold default, from_option, id;
    repeat case_decide; congruence.
Qed.

Lemma godotenv_Load_absent w :
  dotenv w = None →
  ∃ msg, godotenv_Load w = (Ret (Some msg), w).
Proof. intros H. unfold godotenv_Load. rewrite H. eauto. Qed.


Lemma godotenv_Load_heap w : heap (godotenv_Load w).2 = heap w.
Proof. unfold godotenv_Load. by destruct (dotenv w). Qed.

Lemma Load_unfold w :
  let w1 := (godotenv_Load w).2 in
  let p := fresh (dom (heap w)) in
  Load w = (Ret p, set_heap (<[p := built (environ w1)]> (heap w)) w1).
Proof.
  unfold Load, built, getEnv, os_Getenv, gets, new_Config, mbind, M_bind, mret, M_ret.
  unfold godotenv_Load. destruct (dotenv w) as [file|]; simpl.
  - by destruct (decide (default "" ((environ w ∪ file) !! "PORT") = "")).
  - by destruct (decide (default "" (environ w !! "PORT") = "")).
Qed.

Lemma Load_returns w :
  ∃ p c w',
    Load w = (Ret p, w') ∧ heap w !! p = None ∧ heap w' = <[p := c]> (heap w) ∧
    environ w' = environ (godotenv_Load w).2 ∧ c = built (environ w').
Proof.
  eexists _, _, _. split; [apply Load_unfold|]. simpl.
  split; [|done]. apply not_elem_of_dom, is_fresh.
Qed.

(** The fields of the state that [Load] leaves alone. *)
Lemma Load_frame w :
  let w1 := (Load w).2 in
  dotenv w1 = dotenv w ∧ logs w1 = logs w ∧
  listen_fail w1 = listen_fail w ∧ incoming w1 = incoming w ∧
  accept_fail w1 = accept_fail w ∧ listened w1 = listened w ∧
  served w1 = served w.
Proof.
  rewrite Load_unfold. unfold godotenv_Load.
  destruct (dotenv w) eqn:Hd; cbn; by rewrite ?Hd.
Qed.

Lemma Load_environ w :
  environ (Load w).2 = match dotenv w with
                       | Some file => environ w ∪ file
                       | None => environ w
                       end.
Proof.
  rewrite Load_unfold. unfold godotenv_Load. by destruct (dotenv w).
Qed.

(** Every variable after [Load]: the value the process gave it, else
    the value [.env] gives it. *)
Lemma Load_lookup w key :
  environ (Load w).2 !! key =
    match environ w !! key with
    | Some v => Some v
    | None => file ← dotenv w; file !! key
    end.
Proof.
  rewrite Load_environ. destruct (dotenv w) as [file|]; cbn.
  - rewrite lookup_union. by destruct (environ w !! key), (file !! key).
  - by destruct (environ w !! key).
Qed.

Lemma Load_returns_lookup w p w' key :
  Load w = (Ret p, w') →
  environ w' !! key =
    match environ w !! key with
    | Some v => Some v
    | None => file ← dotenv w; file !! key
    end.
Proof. intros HL. rewrite <- Load_lookup. by rewrite HL. Qed.
End config_facts.



(** C3, as stated, fails: with [PORT] present and empty the port is not
    that value but ["8080"]. *)
Lemma empty_PORT_is_replaced :
  ∃ p c w',
    environ w_port_empty !! "PORT" = Some "" ∧
    Load w_port_empty = (Ret p, w') ∧ environ w' !! "PORT" = Some "" ∧
    heap w' !! p = Some c ∧ Port c = "8080" ∧ Port c ≠ "".
Proof.
  eexists _, _, _. split; [done|].
  split; [vm_compute; reflexivity|].
  split; [done|]. split; [vm_compute; reflexivity|]. done.
Qed.

(** C3, amended. The port is [PORT]'s value for every non-empty value;
    it is ["8080"] when [PORT] is unset and when it is present with the
    empty string as its value. Hence the port is ["8080"] only when
    [PORT] is unset, empty or ["8080"] itself. [PORT] is read in the
    environment [Load] leaves: every variable of it has the value the
    process gave it, also the empty one, and otherwise the value [.env]
    gives it, if any. *)
Theorem Load_port_cases (w : World) :
  ∃ p c w',
    Load w = (Ret p, w') ∧ heap w' !! p = Some c ∧
    (∀ key, environ w' !! key =
              match environ w !! key with
              | Some v => Some v
              | None => file ← dotenv w; file !! key
              end) ∧
    Port c = match environ w' !! "PORT" with
             | Some v => if decide (v = "") then "8080" else v
             | None => "8080"
             end ∧
    (Port c = "8080" ↔
       environ w' !! "PORT" = None ∨ environ w' !! "PORT" = Some "" ∨
       environ w' !! "PORT" = Some "8080").
Proof.
  destruct (Load_returns w) as (p & c & w' & HL & _ & Hh & _ & ->).
  exists p, (built (environ w')), w'. split; [done|].
  split; [by rewrite Hh, lookup_insert_eq|].
  split; [intros key; by apply (Load_returns_lookup w p)|].
  rewrite built_Port.
  destruct (environ w' !! "PORT") as [v|].
  - destruct (decide (v = "")) as [->|Hv].
    + split; [done|]. split; [auto|done].
    + split; [done|]. split; [intros ->; auto|].
      intros [?|[?|?]]; congruence.
  - split; [done|]. split; [auto|done].
Qed.

Lemma read_as_default (e : gmap string string) (var : string) :
  read_as e var (default "" (e !! var)).
Proof. split; by intros; simplify_option_eq. Qed.

(** C5. For every process state, the Configuration [Load] returns has
    [DBUrl], [TwilioSID] and [TwilioToken] equal to the values of
    [DATABASE_URL], [TWILIO_SID] and [TWILIO_TOKEN], each the empty string
    when its variable is unset: no default is applied. The variables are
    read in the environment [Load] leaves: every variable of it has the
    value the process gave it, and otherwise the value [.env] gives it,
    if any; without [.env] it is the environment of the process. *)
Theorem Load_no_default (w : World) :
  ∃ p c w',
    Load w = (Ret p, w') ∧ heap w' !! p = Some c ∧
    (∀ key, environ w' !! key =
              match environ w !! key with
              | Some v => Some v
              | None => file ← dotenv w; file !! key
              end) ∧
    (dotenv w = None → environ w' = environ w) ∧
    read_as (environ w') "DATABASE_URL" (DBUrl c) ∧
    read_as (environ w') "TWILIO_SID" (TwilioSID c) ∧
    read_as (environ w') "TWILIO_TOKEN" (TwilioToken c).
Proof.
  destruct (Load_returns w) as (p & c & w' & HL & _ & Hh & He & ->).
  exists p, (built (environ w')), w'. split; [done|].
  split; [by rewrite Hh, lookup_insert_eq|].
  split; [intros key; by apply (Load_returns_lookup w p)|].
  split.
  { intros Hd. rewrite He. by destruct (godotenv_Load_absent w Hd) as [msg ->]. }
  unfold built; cbn [DBUrl TwilioSID TwilioToken]. auto using read_as_default.
Qed.

Lemma Load_no_default_witness :
  ∃ p c w',
    Load w_twilio = (Ret p, w') ∧ heap w' !! p = Some c ∧
    DBUrl c = "postgres://db/govinfo" ∧ TwilioSID c = "AC123" ∧ TwilioToken c = "".
Proof.
  destruct (Load_no_default w_twilio)
    as (p & c & w' & HL & Hc & _ & He & [Hd _] & [Hs _] & [_ Ht]).
  rewrite (He eq_refl) in Hd, Hs, Ht.
  exists p, c, w'. repeat split; [done|done|..].
  - by apply Hd.
  - by apply Hs.
  - by apply Ht.
Defined.

(** C6. Loading never fails. On every process state [Load] returns: it
    yields a pointer to a newly allocated Configuration, and neither
    panics nor ends the process. When [.env] is absent, [godotenv.Load]
    reports an error, [Load] drops it, and the environment is read as it
    stands. *)
Theorem Load_never_fails (w : World) :
  (∃ p c w',
     Load w = (Ret p, w') ∧ heap w !! p = None ∧ heap w' !! p = Some c ∧
     (∀ q, q ≠ p → heap w' !! q = heap w !! q)) ∧
  (dotenv w = None →
     (∃ msg, (godotenv_Load w).1 = Ret (Some msg)) ∧
     environ (Load w).2 = environ w).
Proof.
  split.
  - destruct (Load_returns w) as (p & c & w' & HL & Hfresh & Hh & _ & _).
    exists p, c, w'. rewrite Hh. split; [done|]. split; [done|].
    split; [apply lookup_insert_eq|].
    intros q Hq. by rewrite lookup_insert_ne.
  - intros Hd. destruct (godotenv_Load_absent w Hd) as [msg Hg].
    split; [exists msg; by rewrite Hg|].
    rewrite Load_unfold; simpl. by rewrite Hg.
Qed.

Lemma Load_never_fails_witness :
  ∃ msg, (godotenv_Load w0).1 = Ret (Some msg) ∧ environ (Load w0).2 = environ w0.
Proof.
  destruct (Load_never_fails w0) as [_ H].
  destruct (H eq_refl) as [[msg Hm] He]. eauto.
Defined.

(** ** Facts about the server *)

Section server_facts.
Implicit Types (w : World) (lg : zap_Logger) (logger : option zap_Logger).
Implicit Types (req : Request) (rw : ResponseWriter) (h : Handler).

Lemma bind_run {A B} (m : M A) (f : A → M B) w a w' :
  m w = (Ret a, w') → (m ≫= f) w = f a w'.
Proof. intros H. unfold mbind, M_bind. by rewrite H. Qed.

Lemma health_run lg rw req w :
  health (Some lg) rw req w =
    (Ret (fmt_Fprintln rw "OK"), set_logs (logs w ++ [health_entry lg]) w).
Proof. reflexivity. Qed.

Lemma health_nil rw req w :
  ∃ msg, health None rw req w = (Stop (Panic msg), w).
Proof. eexists. reflexivity. Qed.

(** The router [Start] builds dispatches to the handler exactly on
    GET /health. *)
Lemma router_dispatch h rw req :
  Mux_ServeHTTP (Mux_Get "/health" h chi_NewRouter) rw req =
    if bool_decide (Method req ∈ chi_methods) then
      if bool_decide (URL_Path req = "/health") then
        if bool_decide (Method req = "GET") then h rw req
        else mret (rw_WriteHeader StatusMethodNotAllowed rw)
      else mret (rw_Write ("404 page not found" +:+ newline)
                          (rw_WriteHeader StatusNotFound rw))
    else mret (rw_WriteHeader StatusMethodNotAllowed rw).
Proof.
  unfold Mux_ServeHTTP, Mux_Get, chi_NewRouter, matches, path_known.
  destruct (bool_decide (Method req ∈ chi_methods)); [|done].
  cbn [app List.find existsb route_pattern route_method route_handler].
  repeat case_bool_decide; simplify_eq; try done.
Qed.

Lemma GET_is_routed : "GET" ∈ chi_methods.
Proof. apply list_elem_of_In. cbn. auto. Qed.

Lemma respond_health req :
  Method req = "GET" → URL_Path req = "/health" →
  respond req = mkResponse StatusOK ("OK" +:+ newline).
Proof.
  intros Hm Hp. unfold respond. rewrite Hm, Hp.
  rewrite bool_decide_eq_false_2 by (by intros [? _]).
  rewrite (bool_decide_eq_true_2 _ GET_is_routed).
  by rewrite !bool_decide_eq_true_2.
Qed.

Local Abbreviation routes logger := (Mux_Get "/health" (health logger) chi_NewRouter).

Lemma serve_one_routes lg req w :
  ∃ w',
    serve_one (Mux_ServeHTTP (routes (Some lg))) req w = (Ret tt, w') ∧
    served w' = served w ++ [(req, Some (respond req))] ∧
    logs w' = logs w ++ health_entries lg [req] ∧
    heap w' = heap w ∧ listened w' = listened w.
Proof.
  unfold serve_one, health_entries, is_health, respond, flat_map.
  case_bool_decide as Hopt.
  { destruct Hopt as [Hm Hp]. rewrite Hm, Hp.
    eexists. split; [reflexivity|]. cbn. by rewrite !app_nil_r. }
  rewrite router_dispatch.
  destruct (bool_decide (Method req ∈ chi_methods)) eqn:Hmeth;
    [destruct (bool_decide (URL_Path req = "/health"));
       [destruct (bool_decide (Method req = "GET"))|]|].
  - rewrite health_run. eexists. split; [reflexivity|]. by rewrite app_nil_r.
  - eexists. split; [reflexivity|]. cbn. by rewrite !app_nil_r.
  - eexists. split; [reflexivity|]. cbn. by rewrite !app_nil_r.
  - eexists. split; [reflexivity|]. cbn.
    destruct (bool_decide (URL_Path req = "/health") && bool_decide (Method req = "GET"))
      eqn:Hh; [|by rewrite !app_nil_r].
    apply andb_true_iff in Hh as [_ Hm%bool_decide_eq_true].
    rewrite Hm, (bool_decide_eq_true_2 _ GET_is_routed) in Hmeth. done.
Qed.

Lemma serve_all_routes lg (reqs : list Request) w :
  ∃ w',
    serve_all (Mux_ServeHTTP (routes (Some lg))) reqs w = (Ret tt, w') ∧
    served w' = served w ++ ((λ req, (req, Some (respond req))) <$> reqs) ∧
    logs w' = logs w ++ health_entries lg reqs ∧
    heap w' = heap w ∧ listened w' = listened w.
Proof.
  revert w. induction reqs as [|req reqs IH]; intros w.
  - exists w. cbn. by rewrite !app_nil_r.
  - destruct (serve_one_routes lg req w) as (w1 & H1 & Hs1 & Hl1 & Hh1 & Hb1).
    destruct (IH w1) as (w2 & H2 & Hs2 & Hl2 & Hh2 & Hb2).
    exists w2. cbn [serve_all]. rewrite (bind_run _ _ _ _ _ H1).
    split; [done|].
    rewrite Hs2, Hs1, Hl2, Hl1, Hh2, Hh1, Hb2, Hb1.
    unfold health_entries. cbn [flat_map fmap list_fmap].
    by rewrite <- !app_assoc.
Qed.


Lemma Start_run p c lg w :
  heap w !! p = Some c →
  Start p (Some lg) w =
    http_ListenAndServe (":" +:+ Port c) (Mux_ServeHTTP (routes (Some lg)))
      (set_logs (logs w ++ [listening_entry lg (":" +:+ Port c)]) w).
Proof.
  intros H. unfold Start, deref, mbind, M_bind. by rewrite H.
Qed.

Lemma Start_outcome p c lg w :
  heap w !! p = Some c →
  let addr := ":" +:+ Port c in
  ∃ w',
    Start p (Some lg) w =
      (match listener_error w addr with
       | Some e => Ret (Some e)
       | None => Stop Block
       end, w') ∧
    listened w' = listened w ++ [addr] ∧
    heap w' = heap w ∧
    served w' = served w ++
      (match listen_fail w addr with
       | Some _ => []
       | None => (λ req, (req, Some (respond req))) <$> incoming w
       end) ∧
    logs w' = logs w ++ listening_entry lg addr ::
      (match listen_fail w addr with
       | Some _ => []
       | None => health_entries lg (incoming w)
       end).
Proof.
  intros H addr. rewrite (Start_run p c lg w H). fold addr.
  unfold http_ListenAndServe, listener_error.
  cbn [listen_fail incoming accept_fail listened set_logs].
  destruct (listen_fail w addr) as [e|].
  - eexists. split; [reflexivity|]. cbn. by rewrite app_nil_r.
  - match goal with |- context [serve_all ?h ?l ?w1] =>
      destruct (serve_all_routes lg l w1) as (w2 & -> & Hs & Hl & Hh & Hb)
    end.
    cbn in Hs, Hl, Hh, Hb.
    destruct (accept_fail w) as [e|];
      (eexists; split; [reflexivity|]); cbn [snd];
      rewrite Hs, Hl, Hh, Hb; by rewrite <- ?app_assoc.
Qed.
End server_facts.

(** C1, as stated, fails: the body of the response to GET /health is
    not ["OK"] but ["OK"] followed by a newline, as [fmt.Fprintln]
    writes it. *)
Lemma health_body_has_newline :
  ∃ resp,
    served (Start 0 (Some (mkLogger 0)) w_serving).2 !! 0
      = Some (mkRequest "GET" "/health", Some resp) ∧
    StatusCode resp = 200 ∧ Body resp = "OK" +:+ newline ∧ Body resp ≠ "OK".
Proof. eexists. split; [vm_compute; reflexivity|]. done. Qed.

(** C1, amended. For every Configuration and every request with method
    GET and path /health that the server started by [Start] accepts, the
    response has status 200 and body ["OK"] followed by a newline,
    whatever the Configuration holds. *)
Theorem health_returns_200_OK (p : loc) (c : Config) (lg : zap_Logger)
    (w : World) (i : nat) (req : Request) :
  heap w !! p = Some c →
  listen_fail w (":" +:+ Port c) = None →
  incoming w !! i = Some req →
  Method req = "GET" → URL_Path req = "/health" →
  served (Start p (Some lg) w).2 !! (length (served w) + i)
    = Some (req, Some (mkResponse 200 ("OK" +:+ newline))).
Proof.
  intros Hc Hbind Hi Hm Hp.
  destruct (Start_outcome p c lg w Hc) as (w' & HS & _ & _ & Hs & _).
  rewrite HS; cbn [snd]. rewrite Hs, Hbind.
  rewrite lookup_app_r by lia.
  replace (length (served w) + i - length (served w)) with i by lia.
  rewrite list_lookup_fmap, Hi. cbn.
  by rewrite respond_health.
Qed.

Lemma health_returns_200_OK_witness :
  served (Start 0 (Some (mkLogger 0)) w_serving).2 !! 0
    = Some (mkRequest "GET" "/health", Some (mkResponse 200 ("OK" +:+ newline))).
Proof.
  exact (health_returns_200_OK 0 sample_Config (mkLogger 0) w_serving 0
           (mkRequest "GET" "/health") eq_refl eq_refl eq_refl eq_refl eq_refl).
Defined.

(** ** Facts about the sampler of the production logger *)

Section sampler_facts.
Implicit Types (s : Sampler) (calls : list (Z * Entry)).





(** 300 entries with one message inside a window: 102 are written. *)
Example production_writes_300 :
  length (production_writes new_Sampler
            ((λ i : nat, (Z.of_nat i, mkEntry (mkLogger 0) InfoLevel "Health check called" []))
               <$> seq 1 300)) = 102.
Proof. vm_compute. reflexivity. Qed.
End sampler_facts.




(** C9. For every Configuration, [Start] hands the listener the address
    made of a colon and the Configuration's port, and what [Start]
    returns is the listener's error: the error of binding the address,
    or the error that ends accepting. When the listener meets no error
    [Start] does not return. *)
Theorem Start_listens_on_port (p : loc) (c : Config) (lg : zap_Logger) (w : World) :
  heap w !! p = Some c →
  ∃ w',
    Start p (Some lg) w =
      (match listener_error w (":" +:+ Port c) with
       | Some e => Ret (Some e)
       | None => Stop Block
       end, w') ∧
    listened w' = listened w ++ [":" +:+ Port c].
Proof.
  intros Hc. destruct (Start_outcome p c lg w Hc) as (w' & HS & Hl & _).
  exists w'. by split.
Qed.

Lemma Start_listens_on_port_witness :
  ∃ w',
    Start 0 (Some (mkLogger 0)) w_port_taken =
      (Ret (Some "listen tcp :9090: bind: address already in use"), w') ∧
    listened w' = [":9090"].
Proof.
  destruct (Start_listens_on_port 0 sample_Config (mkLogger 0) w_port_taken eq_refl)
    as (w' & HS & Hl).
  exists w'. split; [exact HS | exact Hl].
Defined.


(** ** Which operations write the Configuration *)

Section heap_frame.
Implicit Types (w : World) (logger : option zap_Logger).

Lemma keeps_heap_ret {A} (a : A) : keeps_heap (mret a).
Proof. done. Qed.

Lemma keeps_heap_stop {A} r : keeps_heap (@stop A r).
Proof. done. Qed.

Lemma keeps_heap_gets {A} (f : World → A) : keeps_heap (gets f).
Proof. done. Qed.










End heap_frame.



Section scope_facts.
Implicit Types (scope : list string) (x : string) (l : list Stmt).

Lemma unresolved_Some scope e x :
  unresolved scope e = Some x → x ∈ idents e ∧ x ∉ scope.
Proof.
  unfold unresolved. intros [Hin Hx]%find_some. split.
  - by apply list_elem_of_In.
  - by apply negb_true_iff, bool_decide_eq_false in Hx.
Qed.

(** What [block_undefined] reports is a statement of the block whose
    unresolved identifier is declared neither outside the block nor by
    a statement before it. *)
Lemma block_undefined_Some scope i l j x :
  block_undefined scope i l = Some (j, x) →
  ∃ k s,
    j = i + k ∧ l !! k = Some s ∧
    stmt_undefined (flat_map declares (reverse (take k l)) ++ scope) s = Some x.
Proof.
  revert scope i. induction l as [|s l IH]; intros scope i; [done|].
  cbn [block_undefined].
  destruct (stmt_undefined scope s) as [y|] eqn:Hs.
  - intros [= <- <-]. exists 0, s. split; [lia|]. by split.
  - intros (k & s' & -> & Hk & Hu)%IH.
    exists (S k), s'. split; [lia|]. split; [done|].
    cbn [take]. rewrite reverse_cons, flat_map_app. cbn [flat_map].
    by rewrite app_nil_r, <- app_assoc.
Qed.

Lemma or_else_Some {A} (a b : option A) (v : A) :
  or_else a b = Some v → a = Some v ∨ b = Some v.
Proof. destruct a; cbn; auto. Qed.

(** An identifier reported for a statement is not in the scope the
    statement stands in, at any depth of nesting. *)
Lemma stmt_undefined_outside :
  ∀ (s : Stmt) scope x, stmt_undefined scope s = Some x → x ∉ scope.
Proof.
  fix IH 1. intros [lhs rhs|lhs rhs|init cond body|e|e] scope x; cbn [stmt_undefined].
  - by intros [_ ?]%unresolved_Some.
  - intros [H|H]%or_else_Some; by apply unresolved_Some in H as [_ ?].
  - intros [H|[H|H]%or_else_Some]%or_else_Some.
    + destruct init as [[lhs rhs]|]; [|done].
      by apply unresolved_Some in H as [_ ?].
    + apply unresolved_Some in H as [_ H].
      destruct init as [[lhs rhs]|]; [|done].
      intros Hx. apply H, elem_of_app. by right.
    + assert (∀ y, y ∈ scope →
                y ∈ match init with Some (lhs, _) => lhs ++ scope | None => scope end)
        as Hsub.
      { intros y Hy. destruct init as [[lhs rhs]|]; [|done].
        apply elem_of_app. by right. }
      revert H Hsub.
      generalize (match init with Some (lhs, _) => lhs ++ scope | None => scope end).
      induction body as [|s body IHbody]; intros sc H Hsub; [done|].
      apply or_else_Some in H as [H|H].
      * intros Hx. by apply (IH s sc x H), Hsub.
      * apply (IHbody _ H). intros y Hy. apply elem_of_app. right. by apply Hsub.
  - by intros [_ ?]%unresolved_Some.
  - by intros [_ ?]%unresolved_Some.
Qed.

(** What [block_undefined] reports is declared neither outside the
    block nor by a statement of the block before the one reported. *)
Lemma block_undefined_undeclared scope i l j x :
  block_undefined scope i l = Some (j, x) →
  (x ∉ scope) ∧ (∀ k s, i + k < j → l !! k = Some s → x ∉ declares s).
Proof.
  intros (k & s & -> & Hk & Hu)%block_undefined_Some.
  apply stmt_undefined_outside in Hu.
  split; [intros Hx; apply Hu, elem_of_app; by right|].
  intros k' s' Hlt Hk' Hx. apply Hu, elem_of_app. left.
  apply list_elem_of_In, in_flat_map. exists s'.
  split; [|by apply list_elem_of_In].
  apply list_elem_of_In, elem_of_reverse, list_elem_of_lookup.
  exists k'. rewrite lookup_take_lt by lia. done.
Qed.

Lemma declared_at_Some x i l j :
  declared_at x i l = Some j →
  ∃ k s, j = i + k ∧ l !! k = Some s ∧ x ∈ declares s ∧
         ∀ k' s', k' < k → l !! k' = Some s' → x ∉ declares s'.
Proof.
  revert i. induction l as [|s l IH]; intros i; [done|].
  cbn [declared_at]. case_bool_decide as Hx.
  - intros [= <-]. exists 0, s. split; [lia|]. do 2 (split; [done|]). lia.
  - intros (k & s' & -> & Hk & Hin & Hbefore)%IH.
    exists (S k), s'. split; [lia|]. do 2 (split; [done|]).
    intros [|k'] s'' Hlt; cbn.
    + by intros [= <-].
    + apply Hbefore. lia.
Qed.
End scope_facts.

(** C8. In the entrypoint as written, the assignment into the
    Configuration's Logger field, the second statement of [main], names
    [logger] while [logger] is not in scope: it is the first unresolved
    identifier of the body, and its declaration, by the construction of
    the logger, is the statement after. Every other identifier of the
    body resolves once [logger] is in scope. *)
Theorem main_uses_logger_before_declaration :
  main_body !! 1 = Some (Assign (Selector (Ident "cfg") "Logger") (Ident "logger")) ∧
  block_undefined file_scope 0 main_body = Some (1, "logger") ∧
  ("logger" ∉ file_scope) ∧
  (∀ s, main_body !! 0 = Some s → "logger" ∉ declares s) ∧
  main_body !! 2 = Some (Define ["logger"; "err"]
                           (Call (Selector (Ident "zap") "NewProduction") [])) ∧
  declared_at "logger" 0 main_body = Some 2 ∧
  block_undefined ("logger" :: file_scope) 0 main_body = None.
Proof.
  assert (block_undefined file_scope 0 main_body = Some (1, "logger")) as Hu
    by (vm_compute; reflexivity).
  destruct (block_undefined_undeclared _ _ _ _ _ Hu) as [Hout Hbefore].
  split; [reflexivity|].
  split; [exact Hu|].
  split; [exact Hout|].
  split; [intros s Hs; apply (Hbefore 0 s); [lia|exact Hs]|].
  split; [reflexivity|].
  split; vm_compute; reflexivity.
Qed.


(** ** Further facts: the loader *)

Section more_config_facts.
Implicit Types (w : World) (key fallback : string).

Lemma getEnv_run key fallback w :
  getEnv key fallback w =
    (Ret (if decide (default "" (environ w !! key) = "")
          then fallback else default "" (environ w !! key)), w).
Proof.
  unfold getEnv, os_Getenv, gets, mbind, M_bind, mret, M_ret.
  by destruct (decide (default "" (environ w !! key) = "")).
Qed.

Lemma default_lookup_empty (e : gmap string string) key :
  default "" (e !! key) = "" ↔ e !! key = None ∨ e !! key = Some "".
Proof.
  destruct (e !! key) as [v|]; unfold default, from_option, id.
  - split; [intros ->; auto|]. by intros [?|[= ->]].
  - split; auto.
Qed.

End more_config_facts.

(** X1. With a non-empty fallback [getEnv] never returns the empty
    string: it returns the variable's value when that is set and not
    empty, the fallback otherwise, and leaves the state as it is. *)
Theorem getEnv_nonempty (key fallback : string) (w : World) :
  fallback ≠ "" →
  ∃ v, getEnv key fallback w = (Ret v, w) ∧ v ≠ "" ∧
       (environ w !! key = Some v ∨
        v = fallback ∧ (environ w !! key = None ∨ environ w !! key = Some "")).
Proof.
  intros Hf. rewrite getEnv_run. eexists. split; [done|].
  destruct (decide (default "" (environ w !! key) = "")) as [He|Hne].
  - split; [done|]. right. split; [done|]. by apply default_lookup_empty.
  - split; [done|]. left.
    destruct (environ w !! key) as [v|] eqn:Hk; [reflexivity|]. by destruct Hne.
Qed.

Lemma getEnv_nonempty_witness :
  ∃ v, getEnv "HOST" "localhost" w_port_empty = (Ret v, w_port_empty) ∧ v ≠ "".
Proof.
  destruct (getEnv_nonempty "HOST" "localhost" w_port_empty ltac:(done))
    as (v & Hv & Hne & _).
  by exists v.
Defined.

(** X2. With the empty string as fallback [getEnv] is [os.Getenv]: the
    guard on the empty value then changes nothing. *)
Theorem getEnv_empty_fallback (key : string) (w : World) :
  getEnv key "" w = os_Getenv key w.
Proof.
  rewrite getEnv_run. unfold os_Getenv, gets.
  destruct (decide (default "" (environ w !! key) = "")) as [->|]; done.
Qed.

(** X3. Where the port comes from: a non-empty [PORT] of the process
    wins over [.env]; an empty [PORT] of the process gives ["8080"]
    whatever [.env] says; a [PORT] the process does not set is taken
    from [.env] when the file gives it a non-empty value. *)
Theorem Load_port_precedence (w : World) :
  ∃ p c w',
    Load w = (Ret p, w') ∧ heap w' !! p = Some c ∧
    (∀ v, environ w !! "PORT" = Some v → v ≠ "" → Port c = v) ∧
    (environ w !! "PORT" = Some "" → Port c = "8080") ∧
    (∀ file v, environ w !! "PORT" = None → dotenv w = Some file →
               file !! "PORT" = Some v → v ≠ "" → Port c = v).
Proof.
  destruct (Load_returns w) as (p & c & w' & HL & _ & Hh & _ & ->).
  exists p, (built (environ w')), w'. split; [done|].
  split; [by rewrite Hh, lookup_insert_eq|].
  assert (w' = (Load w).2) as -> by (by rewrite HL).
  rewrite built_Port.
  split; [|split].
  - intros v Hv Hne. rewrite Load_lookup, Hv. by rewrite decide_False.
  - intros Hv. by rewrite Load_lookup, Hv.
  - intros file v Hv Hd Hf Hne.
    rewrite Load_lookup, Hv, Hd; cbn. rewrite Hf. by rewrite decide_False.
Qed.

Lemma Load_port_precedence_witness :
  ∃ p c w',
    Load w_dotenv_port = (Ret p, w') ∧ heap w' !! p = Some c ∧ Port c = "7000".
Proof.
  destruct (Load_port_precedence w_dotenv_port) as (p & c & w' & HL & Hc & _ & _ & Hfile).
  exists p, c, w'. split; [done|]. split; [done|].
  by apply (Hfile {[ "PORT" := "7000"; "DATABASE_URL" := "postgres://other/db" ]}).
Defined.

Lemma union_twice (e file : gmap string string) : e ∪ file ∪ file = e ∪ file.
Proof.
  apply map_eq. intros k. rewrite !lookup_union.
  by destruct (e !! k), (file !! k).
Qed.

(** X4. Loading again changes nothing but the heap: a second [Load]
    returns a new pointer, to a Configuration equal to the first, leaves
    the first one in place, and leaves the environment as the first
    [Load] left it. *)
Theorem Load_twice (w : World) :
  ∃ p1 p2 c w1 w2,
    Load w = (Ret p1, w1) ∧ Load w1 = (Ret p2, w2) ∧ p1 ≠ p2 ∧
    heap w2 !! p1 = Some c ∧ heap w2 !! p2 = Some c ∧
    environ w2 = environ w1.
Proof.
  destruct (Load_returns w) as (p1 & c1 & w1 & HL1 & _ & Hh1 & _ & Hc1).
  destruct (Load_returns w1) as (p2 & c2 & w2 & HL2 & Hfresh & Hh2 & _ & Hc2).
  assert (heap w1 !! p1 = Some c1) as Hp1 by (by rewrite Hh1, lookup_insert_eq).
  assert (p1 ≠ p2) as Hne by congruence.
  assert (environ w2 = environ w1) as He.
  { replace w2 with (Load w1).2 by (by rewrite HL2).
    replace w1 with (Load w).2 at 1 2 by (by rewrite HL1).
    rewrite (Load_environ (Load w).2).
    destruct (Load_frame w) as (-> & _). rewrite Load_environ.
    destruct (dotenv w) as [file|]; [apply union_twice|done]. }
  exists p1, p2, c1, w1, w2. do 3 (split; [done|]).
  rewrite Hh2. split; [by rewrite lookup_insert_ne|].
  rewrite lookup_insert_eq. by rewrite Hc2, He, <- Hc1.
Qed.

(** ** Further facts: the server *)

(** X5. [Start] panics before it logs or listens when [cfg] points to
    no Configuration or [logger] is nil: the state is left exactly as
    it was. *)
Theorem Start_nil_pointer_panics (p : loc) (logger : option zap_Logger) (w : World) :
  heap w !! p = None ∨ logger = None →
  ∃ msg, Start p logger w = (Stop (Panic msg), w).
Proof.
  intros H. unfold Start, deref, mbind, M_bind.
  destruct (heap w !! p) as [c|] eqn:Hp; [|by eexists].
  destruct H as [?| ->]; [done|]. by eexists.
Qed.

Lemma Start_nil_pointer_panics_witness :
  ∃ msg, Start 0 None w_serving = (Stop (Panic msg), w_serving).
Proof. apply Start_nil_pointer_panics. by right. Defined.

(** X6. When the address cannot be bound, [Start] returns the bind
    error at once: the "Server listening" entry is written all the
    same, and no request is served. *)
Theorem Start_bind_failure (p : loc) (c : Config) (lg : zap_Logger) (w : World) (e : string) :
  heap w !! p = Some c →
  listen_fail w (":" +:+ Port c) = Some e →
  ∃ w',
    Start p (Some lg) w = (Ret (Some e), w') ∧
    served w' = served w ∧
    logs w' = logs w ++ [listening_entry lg (":" +:+ Port c)] ∧
    listened w' = listened w ++ [":" +:+ Port c].
Proof.
  intros Hc Hb.
  destruct (Start_outcome p c lg w Hc) as (w' & HS & Hl & _ & Hs & Hlog).
  unfold listener_error in HS. rewrite Hb in HS, Hs, Hlog.
  exists w'. split; [done|]. by rewrite Hs, app_nil_r.
Qed.

Lemma Start_bind_failure_witness :
  ∃ w',
    Start 0 (Some (mkLogger 0)) w_port_taken
      = (Ret (Some "listen tcp :9090: bind: address already in use"), w') ∧
    served w' = [].
Proof.
  destruct (Start_bind_failure 0 sample_Config (mkLogger 0) w_port_taken
              "listen tcp :9090: bind: address already in use" eq_refl eq_refl)
    as (w' & HS & Hs & _).
  by exists w'.
Defined.



(** ** Further facts: the imports of the entrypoint *)

(** X15. Of the five packages [main.go] imports, [main] names four;
    ["fmt"] is imported and named nowhere in the body. *)
Theorem main_imports_fmt_unused :
  List.filter (λ pkg, negb (bool_decide (pkg ∈ flat_map stmt_idents main_body)))
              main_imports
    = ["fmt"].
Proof. vm_compute. reflexivity. Qed.
